(** * lodashReplacements: a shallow embedding of [src/utils/lodashReplacements.ts]

    The module replaces a handful of lodash helpers by native
    one-liners and wraps two timing micro-libraries.  The development
    below embeds the helpers as functions over a small model of
    JavaScript values and states the properties claimed about them. *)

From Stdlib Require Import ZArith QArith Qminmax Bool List String Ascii DecimalString Lia Lqa.
Import ListNotations.

Local Open Scope string_scope.
Local Open Scope Z_scope.
#[local] Set Warnings "-register-all".

(** ** Numbers

    A JavaScript number is an IEEE-754 double.  Every double denotes
    NaN, one of the two infinities, the negative zero, or a rational
    (positive zero being the rational 0).  The helpers of this module
    only compare, negate and truncate numbers; these operations are
    exact, so the model carries the denoted value. *)

Inductive number : Type :=
| NaN
| NegInf
| PosInf
| NegZero
| Real (q : Q).

Definition of_Z (z : Z) : number := Real (inject_Z z).
Definition of_nat (n : nat) : number := of_Z (Z.of_nat n).

Module Num.

(** [x < y] of the language: false as soon as one side is NaN. *)
Definition ltb (x y : number) : bool :=
  match x, y with
  | NaN, _ | _, NaN => false
  | NegInf, NegInf => false
  | NegInf, _ => true
  | _, NegInf => false
  | PosInf, _ => false
  | _, PosInf => true
  | NegZero, NegZero => false
  | NegZero, Real q => negb (Qle_bool q 0)
  | Real p, NegZero => negb (Qle_bool 0 p)
  | Real p, Real q => negb (Qle_bool q p)
  end.

(** [x <= y] of the language. *)
Definition leb (x y : number) : bool :=
  match x, y with
  | NaN, _ | _, NaN => false
  | NegInf, _ => true
  | _, NegInf => false
  | _, PosInf => true
  | PosInf, _ => false
  | NegZero, NegZero => true
  | NegZero, Real q => Qle_bool 0 q
  | Real p, NegZero => Qle_bool p 0
  | Real p, Real q => Qle_bool p q
  end.

(** [x > y] and [x >= y] are the mirrored comparisons. *)
Definition gtb (x y : number) : bool := ltb y x.
Definition geb (x y : number) : bool := leb y x.

(** [x === y] on numbers: NaN differs from everything, the zeros
    are equal. *)
Definition eqb (x y : number) : bool :=
  match x, y with
  | NegInf, NegInf | PosInf, PosInf | NegZero, NegZero => true
  | NegZero, Real q | Real q, NegZero => Qeq_bool q 0
  | Real p, Real q => Qeq_bool p q
  | _, _ => false
  end.

(** [Number.isNaN]. *)
Definition isNaN (x : number) : bool :=
  match x with NaN => true | _ => false end.

(** Unary minus. *)
Definition neg (x : number) : number :=
  match x with
  | NaN => NaN
  | NegInf => PosInf
  | PosInf => NegInf
  | NegZero => Real 0
  | Real q => if Qeq_bool q 0 then NegZero else Real (- q)
  end.

(** Is the number the positive zero, resp. the negative zero? *)
Definition is_pos_zero (x : number) : bool :=
  match x with Real q => Qeq_bool q 0 | _ => false end.
Definition is_neg_zero (x : number) : bool :=
  match x with NegZero => true | _ => false end.

End Num.

(** ** [Math.min] and [Math.max]

    Both scan their arguments from left to right: NaN is contagious,
    the running result starts at the neutral infinity, and the two
    zeros are ordered, -0 below +0. *)

Definition min_step (lowest x : number) : number :=
  if Num.is_neg_zero x && Num.is_pos_zero lowest then x
  else if Num.ltb x lowest then x else lowest.

Definition max_step (highest x : number) : number :=
  if Num.is_pos_zero x && Num.is_neg_zero highest then x
  else if Num.gtb x highest then x else highest.

Definition Math_min (args : list number) : number :=
  if existsb Num.isNaN args then NaN else fold_left min_step args PosInf.

Definition Math_max (args : list number) : number :=
  if existsb Num.isNaN args then NaN else fold_left max_step args NegInf.

(** ** [inRange]

    [end] is optional; when it is left out the range is [0, start). *)

Definition inRange (value start : number) (end_ : option number) : bool :=
  let '(start, end_) :=
    match end_ with
    | None => (of_Z 0, start)
    | Some e => (start, e)
    end in
  Num.geb value (Math_min [start; end_]) && Num.ltb value (Math_max [start; end_]).

(** ** Integers with infinities: the results of [ToIntegerOrInfinity] *)

Inductive intinf : Type :=
| MinusInfinity
| Int (z : Z)
| PlusInfinity.

(** Truncation toward zero of a rational. *)
Definition Qtrunc (q : Q) : Z := Z.quot (Qnum q) (Zpos (Qden q)).

Definition ToIntegerOrInfinity (x : number) : intinf :=
  match x with
  | NaN | NegZero => Int 0
  | NegInf => MinusInfinity
  | PosInf => PlusInfinity
  | Real q => Int (Qtrunc q)
  end.

(** [ToLength]: clamp to [0, 2^53 - 1]. *)
Definition MAX_SAFE_INTEGER : Z := 2 ^ 53 - 1.

Definition ToLength (x : number) : Z :=
  match ToIntegerOrInfinity x with
  | MinusInfinity => 0
  | Int z => if z <=? 0 then 0 else Z.min z MAX_SAFE_INTEGER
  | PlusInfinity => MAX_SAFE_INTEGER
  end.

(** ** Values

    Objects are modelled by their own string-keyed data properties, in
    enumeration order, each with its [enumerable] attribute.  Dates,
    maps and sets carry their internal slot next to their properties.
    What a read finds beyond the own data properties, the members
    inherited along the prototype chain and the results of accessors,
    is supplied by an [environment] (see the primitive operations).
    Proxies are outside the model. *)

Record prop (V : Type) : Type := mkProp {
  pkey : string;
  penum : bool;
  pval : V
}.
Arguments mkProp {V} _ _ _.
Arguments pkey {V} _.
Arguments penum {V} _.
Arguments pval {V} _.

Inductive value : Type :=
| VUndefined
| VNull
| VBool (b : bool)
| VNum (n : number)
| VStr (s : string)
| VFun (props : list (prop value))
| VArr (elems : list value)
| VObj (props : list (prop value))
| VDate (time : number) (props : list (prop value))
| VMap (entries : list (value * value)) (props : list (prop value))
| VSet (members : list value) (props : list (prop value)).

(** An enumerable data property, as created by an object literal or
    by assignment. *)
Definition field (k : string) (v : value) : prop value := mkProp k true v.

(** ** Completions: a call returns normally or throws *)

Inductive error : Type := TypeError | RangeError.

Inductive completion (A : Type) : Type :=
| Normal (a : A)
| Throw (e : error).
Arguments Normal {A} _.
Arguments Throw {A} _.

Definition bind {A B} (c : completion A) (k : A -> completion B) : completion B :=
  match c with
  | Normal a => k a
  | Throw e => Throw e
  end.

Notation "x <- c ;; k" := (bind c (fun x => k))
  (at level 61, c at next level, right associativity).

Definition returns {A} (c : completion A) : Prop := exists a, c = Normal a.

(** ** Primitive operations of the language *)

Definition typeof (v : value) : string :=
  match v with
  | VUndefined => "undefined"
  | VNull => "object"
  | VBool _ => "boolean"
  | VNum _ => "number"
  | VStr _ => "string"
  | VFun _ => "function"
  | VArr _ | VObj _ | VDate _ _ | VMap _ _ | VSet _ _ => "object"
  end.

(** [v == null]: true of [null] and [undefined] only. *)
Definition nullish (v : value) : bool :=
  match v with
  | VUndefined | VNull => true
  | _ => false
  end.

(** [a ?? b]. *)
Definition coalesce (a b : value) : value := if nullish a then b else a.

(** [v === p] for a primitive [p]; an object is never strictly equal
    to a primitive. *)
Definition strict_equals (v p : value) : bool :=
  match v, p with
  | VUndefined, VUndefined | VNull, VNull => true
  | VBool a, VBool b => Bool.eqb a b
  | VNum a, VNum b => Num.eqb a b
  | VStr a, VStr b => String.eqb a b
  | _, _ => false
  end.

Definition Array_isArray (v : value) : bool :=
  match v with VArr _ => true | _ => false end.

(** [Number.isNaN(v)]: no coercion, true of the NaN number only. *)
Definition Number_isNaN (v : value) : bool :=
  match v with VNum n => Num.isNaN n | _ => false end.

(** [v instanceof Date]. *)
Definition instanceof_Date (v : value) : bool :=
  match v with VDate _ _ => true | _ => false end.

(** The canonical decimal string of an index, and the index a
    property key denotes, if any. *)
Definition index_key (i : N) : string := NilZero.string_of_uint (N.to_uint i).

Definition array_index (key : string) : option N :=
  match NilZero.uint_of_string key with
  | Some u =>
      let i := N.of_uint u in
      if String.eqb (index_key i) key && (i <? 2 ^ 32 - 1)%N then Some i else None
  | None => None
  end.

Fixpoint find_prop (props : list (prop value)) (key : string) : option (prop value) :=
  match props with
  | [] => None
  | p :: rest => if String.eqb (pkey p) key then Some p else find_prop rest key
  end.

Definition own_props (v : value) : list (prop value) :=
  match v with
  | VFun ps | VObj ps | VDate _ ps | VMap _ ps | VSet _ ps => ps
  | _ => []
  end.

Definition lookup_own (props : list (prop value)) (key : string) : value :=
  match find_prop props key with
  | Some p => pval p
  | None => VUndefined
  end.

(** The code units of a string, as an array would hold them. *)
Fixpoint chars (s : string) : list value :=
  match s with
  | EmptyString => []
  | String c rest => VStr (String c EmptyString) :: chars rest
  end.

(** The own properties of an array or of a string: [length] and the
    indices below it. *)
Definition indexed (elems : list value) (key : string) : option value :=
  if String.eqb key "length" then Some (VNum (of_nat (List.length elems)))
  else match array_index key with
       | Some i => nth_error elems (N.to_nat i)
       | None => None
       end.

(** The own data property [key] of a value, if it has one. *)
Definition own_read (v : value) (key : string) : option value :=
  match v with
  | VUndefined | VNull => None
  | VArr elems => indexed elems key
  | VStr s => indexed (chars s) key
  | _ => option_map pval (find_prop (own_props v) key)
  end.

(** What a read of [key] on a value gives when the value has no own
    data property of that name: the member inherited along the
    prototype chain, the result of an accessor, which may raise, or
    [undefined].  The built-in prototypes and the accessors belong to
    the objects handed to the helpers, not to the module, so every
    read takes the environment as a parameter.  An environment gives
    one answer per value and key: it stands for one state of the
    objects read, in which objects with the same own properties
    inherit alike. *)
Definition environment : Type := value -> string -> completion value.

(** [v[key]]: reading a property of [null] or [undefined] throws;
    an own data property is found first, the environment answers for
    the rest. *)
Definition Get (inherited : environment) (v : value) (key : string)
  : completion value :=
  match v with
  | VUndefined | VNull => Throw TypeError
  | _ => match own_read v key with
         | Some x => Normal x
         | None => inherited v key
         end
  end.

(** What calling a function held by an object gives, from the
    function and the object it is called on.  Such functions are not
    part of the module, so their calls are a parameter as well. *)
Definition method_call : Type := value -> value -> completion value.

(** [v.getTime()]: on a date the method is the built-in one, which
    gives the time value, unless an own property [getTime] shadows
    it; that property is then called, a TypeError if it is not a
    function.  Without a date slot the built-in method raises a
    TypeError. *)
Definition getTime (call : method_call) (v : value) : completion value :=
  match v with
  | VDate t props =>
      match find_prop props "getTime" with
      | None => Normal (VNum t)
      | Some p =>
          if String.eqb (typeof (pval p)) "function" then call (pval p) v
          else Throw TypeError
      end
  | _ => Throw TypeError
  end.


(** The environment in which no member is inherited: a read that
    finds no own data property gives [undefined]. *)
Definition bare : environment := fun _ _ => Normal VUndefined.


(** [Object.keys(v)]: the enumerable own string keys. *)
Definition index_keys (n : nat) : list string :=
  map (fun i => index_key (N.of_nat i)) (seq 0 n).

Definition Object_keys (v : value) : completion (list string) :=
  match v with
  | VUndefined | VNull => Throw TypeError
  | VArr elems => Normal (index_keys (List.length elems))
  | VStr s => Normal (index_keys (String.length s))
  | _ => Normal (map pkey (filter penum (own_props v)))
  end.

(** [s.split('.')]. *)
Fixpoint split (sep : ascii) (s : string) : list string :=
  match s with
  | EmptyString => [EmptyString]
  | String c rest =>
      if Ascii.eqb c sep then EmptyString :: split sep rest
      else match split sep rest with
           | [] => [String c EmptyString]
           | h :: t => String c h :: t
           end
  end.

(** [array.slice(start, end)] with both bounds given. *)
Definition relative (len : Z) (i : intinf) : Z :=
  match i with
  | MinusInfinity => 0
  | Int z => if z <? 0 then Z.max (len + z) 0 else Z.min z len
  | PlusInfinity => len
  end.

Definition Array_slice {T} (array : list T) (start end_ : number) : list T :=
  let len := Z.of_nat (List.length array) in
  let k := relative len (ToIntegerOrInfinity start) in
  let final := relative len (ToIntegerOrInfinity end_) in
  firstn (Z.to_nat (Z.max (final - k) 0)) (skipn (Z.to_nat k) array).

(** ** The native helpers

    Helpers whose body calls an operation that can throw are written
    in the completion monad, so that their guards carry weight. *)





Definition isDate (call : method_call) (v : value) : completion bool :=
  if instanceof_Date v then
    t <- getTime call v ;;
    Normal (negb (Number_isNaN t))
  else Normal false.

Definition isEmpty (inherited : environment) (v : value) : completion bool :=
  if nullish v then Normal true
  else if Array_isArray v || String.eqb (typeof v) "string" then
    len <- Get inherited v "length" ;;
    Normal (strict_equals len (VNum (of_Z 0)))
  else if String.eqb (typeof v) "object" then
    keys <- Object_keys v ;;
    Normal (Nat.eqb (List.length keys) 0)
  else Normal false.


(** The path of [get] is a dotted string or an array of keys. *)
Inductive path : Type :=
| PathString (s : string)
| PathArray (keys : list string).

(** The [for ... of keys] loop of [get] and the statement after it. *)
Fixpoint get_loop (inherited : environment) (keys : list string)
  (result defaultValue : value) : completion value :=
  match keys with
  | [] => Normal (coalesce result defaultValue)
  | key :: rest =>
      if nullish result then Normal defaultValue
      else
        r <- Get inherited result key ;;
        get_loop inherited rest r defaultValue
  end.

(** [Array.isArray(path) ? path : path.split('.')]. *)
Definition path_keys (p : path) : list string :=
  match p with
  | PathArray ks => ks
  | PathString s => split "."%char s
  end.

(** A call that leaves [defaultValue] out passes [VUndefined]. *)
Definition get (inherited : environment) (obj : value) (p : path)
  (defaultValue : value) : completion value :=
  let keys := path_keys p in
  get_loop inherited keys obj defaultValue.

(** What a path resolves to: the plain chain [obj[k1][k2]...], which
    throws as soon as it reads a property of [null] or [undefined]. *)
Fixpoint resolve (inherited : environment) (v : value) (keys : list string)
  : completion value :=
  match keys with
  | [] => Normal v
  | key :: rest =>
      r <- Get inherited v key ;;
      resolve inherited r rest
  end.


(** [Array.from({length: n}, (_, i) => iteratee(i))]: the length is
    [ToLength(n)], and the array constructor refuses a length above
    [2^32 - 1]. *)
Definition MAX_ARRAY_LENGTH : Z := 2 ^ 32 - 1.

Definition times {T} (n : number) (iteratee : number -> T) : completion (list T) :=
  let len := ToLength n in
  if len >? MAX_ARRAY_LENGTH then Throw RangeError
  else Normal (map (fun i => iteratee (of_nat i)) (seq 0 (Z.to_nat len))).


(** [n] defaults to 1. *)
Definition dropRight {T} (array : list T) (n : option number) : list T :=
  let n := match n with Some n => n | None => of_Z 1 end in
  if Num.geb n (of_nat (List.length array)) then []
  else Array_slice array (of_Z 0) (Num.neg n).

(** The array delegates pass [(value, index, array)] to their callback. *)
Section Delegates.
Context {T R : Type}.

Fixpoint find_from (array : list T) (predicate : T -> number -> list T -> bool)
  (i : nat) (rest : list T) : number :=
  match rest with
  | [] => of_Z (-1)
  | x :: rest' =>
      if predicate x (of_nat i) array then of_nat i
      else find_from array predicate (S i) rest'
  end.

Definition findIndex (array : list T) (predicate : T -> number -> list T -> bool)
  : number :=
  find_from array predicate 0%nat array.

Definition with_index (array : list T) : list (T * nat) :=
  combine array (seq 0 (List.length array)).

Definition filter (array : list T) (predicate : T -> number -> list T -> bool)
  : list T :=
  map fst (List.filter (fun xi => predicate (fst xi) (of_nat (snd xi)) array)
             (with_index array)).

Definition map (array : list T) (iteratee : T -> number -> list T -> R) : list R :=
  List.map (fun xi => iteratee (fst xi) (of_nat (snd xi)) array) (with_index array).

Definition some (array : list T) (predicate : T -> number -> list T -> bool) : bool :=
  existsb (fun xi => predicate (fst xi) (of_nat (snd xi)) array) (with_index array).

End Delegates.

(** [array.length ? Math.min(...array) : undefined].  The spread
    passes the elements as the arguments of one call, and an engine
    accepts only so many of them: beyond [max_arguments] the call
    raises a RangeError.  The language definition sets no figure, so
    the limit is a parameter. *)
Definition min (max_arguments : nat) (array : list number) : completion value :=
  if Nat.eqb (List.length array) 0 then Normal VUndefined
  else if (max_arguments <? List.length array)%nat then Throw RangeError
  else Normal (VNum (Math_min array)).

(** [result[key] = v] on an ordinary object: the key [__proto__] is an
    inherited accessor and creates no own property. *)
Fixpoint assign (props : list (prop value)) (key : string) (v : value)
  : list (prop value) :=
  match props with
  | [] => [field key v]
  | p :: rest =>
      if String.eqb (pkey p) key then mkProp key (penum p) v :: rest
      else p :: assign rest key v
  end.

Definition Set_ (props : list (prop value)) (key : string) (v : value)
  : list (prop value) :=
  if String.eqb key "__proto__" then props else assign props key v.

(** [for (const key in obj)] visits the enumerable keys;
    [hasOwnProperty] keeps the own ones. *)
Definition for_in_keys (obj : list (prop value)) : list string :=
  List.map pkey (List.filter penum obj).

Definition hasOwnProperty (obj : list (prop value)) (key : string) : bool :=
  match find_prop obj key with Some _ => true | None => false end.

Definition pickBy (obj : list (prop value)) (predicate : value -> string -> bool)
  : list (prop value) :=
  fold_left
    (fun result key =>
       if hasOwnProperty obj key && predicate (lookup_own obj key) key
       then Set_ result key (lookup_own obj key)
       else result)
    (for_in_keys obj) [].

(** ** The timing wrappers *)

(** [{leading?: boolean; trailing?: boolean}]: an absent field reads
    as [undefined], here [None]. *)
Record DebounceOptions : Type := mkOptions {
  leading : option bool;
  trailing : option bool
}.

(** The literal [{}]. *)
Definition no_options : DebounceOptions := mkOptions None None.

(** [b ?? d] on an optional boolean. *)
Definition coalesce_bool (b : option bool) (d : bool) : bool :=
  match b with
  | Some x => x
  | None => d
  end.

(** [b === true]. *)
Definition is_true (b : option bool) : bool :=
  match b with
  | Some true => true
  | _ => false
  end.

(** The options object handed to the throttling library. *)
Record ThrottleOptions : Type := mkThrottle {
  th_leading : bool;
  th_trailing : bool
}.

Section Throttle.
(** The wrapped function and the throttled function are opaque;
    [justThrottle] is the imported library function. *)
Context {F G : Type}.
Variable justThrottle : F -> Z -> ThrottleOptions -> G.

Definition throttle (func : F) (wait : option Z) (options : option DebounceOptions) : G :=
  let wait := match wait with Some w => w | None => 0 end in
  let options := match options with Some o => o | None => no_options end in
  justThrottle func wait
    (mkThrottle (coalesce_bool (leading options) true)
                (coalesce_bool (trailing options) true)).
End Throttle.

(** The configuration a call of [throttle] hands to the library: the
    wrapper run against a library that gives its third argument back. *)
Definition throttle_configuration (wait : option Z) (options : option DebounceOptions)
  : ThrottleOptions :=
  throttle (fun (_ : unit) (_ : Z) (o : ThrottleOptions) => o) tt wait options.

Module Debounce.

(** The invocation policy of a rate-limited invoker: the delay and
    the two edges. *)
Record policy : Type := mkPolicy {
  wait : Z;
  on_leading : bool;
  on_trailing : bool
}.

(** Modelled from the spec: [justDebounce], the function imported
    from the package just-debounce-it, whose code is not part of the
    sources.  The third argument selects the immediate mode, that is
    the leading edge; the trailing edge is the posture when leading
    is off.  The spec does not say whether an immediate-mode invoker
    also fires on the trailing edge, so this is left as the
    parameter [also_trailing]. *)
Definition justDebounce (also_trailing : bool) (wait : Z) (immediate : bool) : policy :=
  mkPolicy wait immediate (if immediate then also_trailing else true).

(** The wrapper of the module: only [options.leading] is read. *)
Definition debounce (also_trailing : bool) (wait : option Z)
  (options : option DebounceOptions) : policy :=
  let wait := match wait with Some w => w | None => 0 end in
  let options := match options with Some o => o | None => no_options end in
  let immediate := is_true (leading options) in
  justDebounce also_trailing wait immediate.

Section Invoker.

(** The arguments of a call. *)
Variable Args : Type.

(** Modelled from the spec: the state of the debounced function
    [g] returned by the absent [justDebounce], a pending delay
    timer (its deadline) and the arguments buffered for the
    deferred call. *)
Record state : Type := mkState {
  timer : option Z;
  buffered : option Args
}.

Definition idle : state := mkState None None.

Definition pending (s : state) : bool :=
  match timer s with Some _ => true | None => false end.

(** One invocation of [f]: when, and with which arguments. *)
Definition invocation : Type := (Z * Args)%type.

(** Modelled from the spec: a call of the absent [g] at time
    [now].  The call restarts the delay timer and buffers its
    arguments; with the leading edge on and no timer pending, [f]
    is invoked at once. *)
Definition call (p : policy) (now : Z) (args : Args) (s : state)
  : state * list invocation :=
  (mkState (Some (now + wait p)) (Some args),
   if on_leading p && negb (pending s) then [(now, args)] else []).

(** Modelled from the spec: the delay timer of the absent [g]
    elapses.  With the trailing edge on, [f] is invoked once with
    the buffered arguments. *)
Definition elapse (p : policy) (s : state) : state * list invocation :=
  match timer s with
  | None => (s, [])
  | Some deadline =>
      (idle,
       match buffered s with
       | Some args => if on_trailing p then [(deadline, args)] else []
       | None => []
       end)
  end.

(** Time advances to [now]: a timer whose deadline has come
    elapses. *)
Definition advance (p : policy) (now : Z) (s : state) : state * list invocation :=
  match timer s with
  | Some deadline => if deadline <=? now then elapse p s else (s, [])
  | None => (s, [])
  end.

(** The invocations of [f] caused by a series of calls of [g],
    given by time and arguments, followed by the time it takes
    the last timer to elapse. *)
Fixpoint run (p : policy) (calls : list (Z * Args)) (s : state) : list invocation :=
  match calls with
  | [] => snd (elapse p s)
  | (now, args) :: rest =>
      let '(s1, before) := advance p now s in
      let '(s2, during) := call p now args s1 in
      (before ++ during ++ run p rest s2)%list
  end.

(** A burst: successive calls less than [wait] apart. *)
Fixpoint burst_from (w prev : Z) (calls : list (Z * Args)) : Prop :=
  match calls with
  | [] => True
  | (now, _) :: rest => prev <= now /\ now - prev < w /\ burst_from w now rest
  end.

Definition burst (w : Z) (calls : list (Z * Args)) : Prop :=
  match calls with
  | [] => False
  | (now, _) :: rest => burst_from w now rest
  end.

(** The number of settling periods of a series of calls: a call
    that comes [wait] or more after the previous one starts a new
    burst. *)
Fixpoint settlings_from (w prev : Z) (calls : list (Z * Args)) : nat :=
  match calls with
  | [] => 0
  | (now, _) :: rest =>
      if now - prev <? w then settlings_from w now rest
      else S (settlings_from w now rest)
  end.

Definition settlings (w : Z) (calls : list (Z * Args)) : nat :=
  match calls with
  | [] => 0
  | (now, _) :: rest => S (settlings_from w now rest)
  end.

(** The most invocations one settling period can bring. *)
Definition per_period (p : policy) : nat :=
  if on_leading p then 2%nat else 1%nat.
End Invoker.

(** Three calls less than 100 apart, and the same calls with the
    last one coming late. *)
Definition sample_burst : list (Z * string) := [(0, "a"); (40, "b"); (120, "c")].
Definition sample_calls : list (Z * string) := [(0, "a"); (40, "b"); (300, "c")].

Arguments idle {Args}.
Arguments pending {Args} _.
Arguments timer {Args} _.
Arguments buffered {Args} _.
Arguments mkState {Args} _ _.
Arguments call {Args} _ _ _ _.
Arguments elapse {Args} _ _.
Arguments advance {Args} _ _ _.
Arguments run {Args} _ _ _.
Arguments burst {Args} _ _.
Arguments burst_from {Args} _ _ _.
Arguments settlings {Args} _ _.
Arguments settlings_from {Args} _ _ _.

End Debounce.

(** ** The calls a client of the module can make

    One constructor per helper the module defines, with arguments of
    its declared type; callbacks are functions that return.
    [run_helper] performs the call, given the environment of the
    property reads, the calls of the functions held by objects and
    the argument limit of the engine, and wraps a plain result into a
    value. *)



(** ** Definitions for the further properties *)

(** A key that does not hold the separator. *)
Fixpoint free_of (sep : ascii) (s : string) : bool :=
  match s with
  | EmptyString => true
  | String c rest => negb (Ascii.eqb c sep) && free_of sep rest
  end.

Section DebounceWrapper.
(** [debounce] over the library function it imports, whatever that
    function does with the wrapped function, the wait and the
    immediate flag. *)
Context {F G : Type}.
Variable justDebounce : F -> Z -> bool -> G.

Definition debounce (func : F) (wait : option Z) (options : option DebounceOptions) : G :=
  let wait := match wait with Some w => w | None => 0 end in
  let options := match options with Some o => o | None => no_options end in
  let immediate := is_true (leading options) in
  justDebounce func wait immediate.
End DebounceWrapper.

(** * Properties *)

(** ** Comparing rationals through their boolean tests *)

Lemma Qle_bool_false (a b : Q) : Qle_bool a b = false -> (b < a)%Q.
Proof.
  intros H. apply Qnot_le_lt. intros L. apply Qle_bool_iff in L. congruence.
Qed.

Lemma Qeq_bool_false (a b : Q) : Qeq_bool a b = false -> ~ (a == b)%Q.
Proof. intros H E. apply Qeq_bool_iff in E. congruence. Qed.

Ltac q_case :=
  match goal with
  | |- context [Qle_bool ?a ?b] =>
      let H := fresh "H" in
      destruct (Qle_bool a b) eqn:H;
      [apply Qle_bool_iff in H | apply Qle_bool_false in H]
  | |- context [Qeq_bool ?a ?b] =>
      let H := fresh "H" in
      destruct (Qeq_bool a b) eqn:H;
      [apply Qeq_bool_iff in H | apply Qeq_bool_false in H]
  end.

Ltac q_cases := repeat (q_case; cbn); try reflexivity; try (exfalso; lra).

Lemma length_le_bool (n : nat) :
  Qle_bool (inject_Z (Z.of_nat n)) (inject_Z 1) = (n <=? 1)%nat.
Proof.
  destruct (n <=? 1)%nat eqn:E.
  - apply Qle_bool_iff. rewrite <- Zle_Qle. apply Nat.leb_le in E. lia.
  - destruct (Qle_bool _ _) eqn:L; [|reflexivity].
    apply Qle_bool_iff in L. rewrite <- Zle_Qle in L.
    apply Nat.leb_gt in E. lia.
Qed.

(** ** [inRange] *)

(** Over rationals the test is the half-open interval between the
    smaller and the larger bound. *)
Lemma inRange_rational (v s e : Q) :
  inRange (Real v) (Real s) (Some (Real e)) = true
  <-> (Qmin s e <= v /\ v < Qmax s e)%Q.
Proof.
  unfold inRange, Math_min, Math_max, min_step, max_step, Num.geb, Num.gtb.
  cbn.
  destruct (Q.min_spec s e) as [[L Em]|[L Em]];
    destruct (Q.max_spec s e) as [[L' EM]|[L' EM]];
    rewrite Em, EM; clear Em EM;
    repeat (q_case; cbn); split; intros K;
    try discriminate; try reflexivity; try (exfalso; lra);
    try (destruct K; split; lra); try (split; lra); try (destruct K; lra).
Qed.

(** C10: with [end] supplied, [inRange] does not change when the two
    bounds are swapped, for all numbers including NaN, the infinities
    and both zeros; on rationals it tests
    min(start, end) <= value < max(start, end). *)
Theorem inRange_bounds_swap :
  (forall value start end_ : number,
      inRange value start (Some end_) = inRange value end_ (Some start))
  /\ (forall value start end_ : number,
         inRange value start (Some end_)
         = Num.leb (Math_min [start; end_]) value
           && Num.ltb value (Math_max [start; end_]))
  /\ (forall v s e : Q,
         inRange (Real v) (Real s) (Some (Real e)) = true
         <-> (Qmin s e <= v /\ v < Qmax s e)%Q).
Proof.
  split; [|split].
  - intros value start e.
    unfold inRange, Math_min, Math_max, min_step, max_step, Num.geb, Num.gtb.
    destruct value as [| | | |v], start as [| | | |s], e as [| | | |e]; cbn;
      try reflexivity; q_cases.
  - reflexivity.
  - exact inRange_rational.
Qed.

(** ** [dropRight] *)

Lemma slice_zero_zero {T} (array : list T) :
  Array_slice array (of_Z 0) NegZero = [].
Proof.
  unfold Array_slice. cbn.
  replace (Z.min 0 (Z.of_nat (List.length array))) with 0 by lia.
  reflexivity.
Qed.

Lemma slice_drop_last {T} (array : list T) :
  Array_slice array (of_Z 0) (Num.neg (of_Z 1)) = removelast array.
Proof.
  unfold Array_slice. cbn.
  replace (Z.min 0 (Z.of_nat (List.length array))) with 0 by lia.
  cbn [Z.to_nat skipn].
  rewrite removelast_firstn_len. f_equal. lia.
Qed.

(** C8: [dropRight(array, 0)] is the empty array whatever the array,
    the bound [-0] of the slice being 0; with [n] left to its default
    1 the result is the array without its last element. *)
Theorem dropRight_zero_and_default :
  (forall (T : Type) (array : list T), dropRight array (Some (of_Z 0)) = [])
  /\ Num.neg (of_Z 0) = NegZero
  /\ ToIntegerOrInfinity NegZero = Int 0
  /\ (forall (T : Type) (array : list T), dropRight array None = removelast array)
  /\ (forall (T : Type) (array : list T) (x : T),
        dropRight (array ++ [x])%list None = array).
Proof.
  assert (D : forall (T : Type) (array : list T), dropRight array None = removelast array).
  { intros T array. unfold dropRight, Num.geb, Num.leb, of_nat, of_Z.
    rewrite length_le_bool.
    destruct (List.length array <=? 1)%nat eqn:E.
    - apply Nat.leb_le in E.
      destruct array as [|a [|b l]]; cbn in *; try reflexivity; lia.
    - apply slice_drop_last. }
  split; [|split; [reflexivity|split; [reflexivity|split; [exact D|]]]].
  - intros T array. unfold dropRight.
    destruct (Num.geb _ _); [reflexivity|]. apply slice_zero_zero.
  - intros T array x. rewrite D. apply removelast_last.
Qed.

(** ** [throttle] *)

(** C3: the options [throttle] hands to the rate limiter have
    [leading] true when [options.leading] is undefined and [trailing]
    true when [options.trailing] is undefined; a boolean that is
    supplied is forwarded as it is.  Whatever the limiter, the wrapper
    is the limiter called on the function, the wait (0 when left out)
    and that configuration. *)
Theorem throttle_defaults (wait : option Z) (options : DebounceOptions) :
  let cfg := throttle_configuration wait (Some options) in
  (leading options = None -> th_leading cfg = true)
  /\ (trailing options = None -> th_trailing cfg = true)
  /\ (forall b, leading options = Some b -> th_leading cfg = b)
  /\ (forall b, trailing options = Some b -> th_trailing cfg = b)
  /\ throttle_configuration wait None = mkThrottle true true
  /\ (forall (F G : Type) (justThrottle : F -> Z -> ThrottleOptions -> G) (func : F),
        throttle justThrottle func wait (Some options)
        = justThrottle func (match wait with Some w => w | None => 0 end) cfg).
Proof.
  destruct options as [l t]; cbn.
  repeat apply conj; try reflexivity.
  - intros ->. reflexivity.
  - intros ->. reflexivity.
  - intros b ->. reflexivity.
  - intros b ->. reflexivity.
Qed.

Lemma throttle_defaults_witness :
  th_leading (throttle_configuration (Some 15) (Some (mkOptions None (Some false)))) = true
  /\ th_trailing (throttle_configuration (Some 15) (Some (mkOptions None (Some false)))) = false.
Proof.
  pose proof (throttle_defaults (Some 15) (mkOptions None (Some false))) as H.
  cbv zeta in H.
  destruct H as (L & _ & _ & T & _).
  split; [apply L; reflexivity | apply T; reflexivity].
Defined.

(** ** [isEmpty] *)

Lemma keys_nonempty (props : list (prop value)) :
  existsb penum props = true ->
  Nat.eqb (List.length (List.map pkey (List.filter penum props))) 0 = false.
Proof.
  induction props as [|p props IH]; cbn; [discriminate|].
  destruct (penum p); cbn; [reflexivity|exact IH].
Qed.

Lemma keys_empty (props : list (prop value)) :
  existsb penum props = false ->
  Nat.eqb (List.length (List.map pkey (List.filter penum props))) 0 = true.
Proof.
  induction props as [|p props IH]; cbn; [reflexivity|].
  destruct (penum p); cbn; [discriminate|exact IH].
Qed.

(** C5: [isEmpty] answers true on the empty array, the empty object,
    the empty string, [null] and [undefined], and false on every
    non-empty array, every object with an enumerable own key and every
    non-empty string. *)
Theorem isEmpty_cases (inherited : environment) :
  isEmpty inherited (VArr []) = Normal true
  /\ isEmpty inherited (VObj []) = Normal true
  /\ isEmpty inherited (VStr "") = Normal true
  /\ isEmpty inherited VNull = Normal true
  /\ isEmpty inherited VUndefined = Normal true
  /\ (forall x xs, isEmpty inherited (VArr (x :: xs)) = Normal false)
  /\ (forall props, existsb penum props = true ->
                    isEmpty inherited (VObj props) = Normal false)
  /\ (forall c s, isEmpty inherited (VStr (String c s)) = Normal false).
Proof.
  repeat apply conj; try reflexivity.
  intros props H. cbn. rewrite (keys_nonempty props H). reflexivity.
Qed.

Lemma isEmpty_cases_witness :
  isEmpty bare (VObj [mkProp "hidden" false VNull; field "a" (VNum (of_Z 1))])
  = Normal false.
Proof.
  destruct (isEmpty_cases bare) as (_ & _ & _ & _ & _ & _ & H & _).
  apply H. reflexivity.
Defined.

(** C6: on a value that is an object, not null and not an array,
    [isEmpty] is decided by the enumerable own keys alone; a map or a
    set without such keys is therefore reported empty whatever it
    contains. *)
Theorem isEmpty_keys_only (inherited : environment) (v : value) :
  nullish v = false ->
  Array_isArray v = false ->
  typeof v = "object" ->
  isEmpty inherited v = Normal (negb (existsb penum (own_props v)))
  /\ (forall entries props,
         v = VMap entries props -> existsb penum props = false ->
         isEmpty inherited v = Normal true)
  /\ (forall members props,
         v = VSet members props -> existsb penum props = false ->
         isEmpty inherited v = Normal true).
Proof.
  intros Hn Ha Ht.
  assert (K : isEmpty inherited v = Normal (negb (existsb penum (own_props v)))).
  { destruct v; cbn in *; try discriminate;
      match goal with
      | |- context [existsb penum ?ps] =>
          destruct (existsb penum ps) eqn:E;
          [rewrite (keys_nonempty _ E) | rewrite (keys_empty _ E)]; reflexivity
      end. }
  split; [exact K|split].
  - intros entries props -> E. rewrite K. cbn. rewrite E. reflexivity.
  - intros members props -> E. rewrite K. cbn. rewrite E. reflexivity.
Qed.

Lemma isEmpty_keys_only_witness :
  isEmpty bare (VMap [(VStr "k", VNum (of_Z 1))] []) = Normal true
  /\ isEmpty bare (VSet [VNum (of_Z 1)] [mkProp "size" false (VNum (of_Z 1))])
     = Normal true.
Proof.
  split.
  - apply (isEmpty_keys_only bare (VMap [(VStr "k", VNum (of_Z 1))] [])
             eq_refl eq_refl eq_refl); reflexivity.
  - pose proof (isEmpty_keys_only bare
                  (VSet [VNum (of_Z 1)] [mkProp "size" false (VNum (of_Z 1))])
                  eq_refl eq_refl eq_refl) as (_ & _ & S).
    apply (S [VNum (of_Z 1)] [mkProp "size" false (VNum (of_Z 1))]); reflexivity.
Defined.

(** ** [get] *)




(** The loop agrees with the plain chain wherever the chain returns. *)
Lemma get_loop_resolve (inherited : environment) (keys : list string) :
  forall obj v defaultValue,
    resolve inherited obj keys = Normal v ->
    get_loop inherited keys obj defaultValue = Normal (coalesce v defaultValue).
Proof.
  induction keys as [|key rest IH]; intros obj v d; cbn.
  - intros [= ->]. reflexivity.
  - destruct (Get inherited obj key) as [r|e] eqn:G; cbn; [|discriminate].
    intros R. destruct (nullish obj) eqn:N.
    + destruct obj; cbn in *; discriminate.
    + apply IH, R.
Qed.





(** C9: when the whole path resolves to [null], [get] returns
    [defaultValue] and not [null]; the same holds for [undefined], so
    the default replaces a nullish final value as well as an absent
    segment. *)
Theorem get_null_yields_default (inherited : environment) (obj : value) (p : path)
  (defaultValue : value) :
  (resolve inherited obj (path_keys p) = Normal VNull ->
   get inherited obj p defaultValue = Normal defaultValue)
  /\ (resolve inherited obj (path_keys p) = Normal VUndefined ->
      get inherited obj p defaultValue = Normal defaultValue).
Proof.
  split; intros R; unfold get;
    rewrite (get_loop_resolve _ _ _ _ defaultValue R); reflexivity.
Qed.

Lemma get_null_yields_default_witness :
  resolve bare (VObj [field "a" (VObj [field "b" VNull])]) ["a"; "b"] = Normal VNull
  /\ get bare (VObj [field "a" (VObj [field "b" VNull])]) (PathString "a.b")
       (VNum (of_Z 7))
     = Normal (VNum (of_Z 7)).
Proof.
  split; [reflexivity|].
  apply (proj1 (get_null_yields_default bare
                  (VObj [field "a" (VObj [field "b" VNull])]) (PathString "a.b")
                  (VNum (of_Z 7)))).
  reflexivity.
Defined.

(** ** When a helper raises *)




Lemma times_returns {T} (n : number) (iteratee : number -> T) :
  ToLength n <= MAX_ARRAY_LENGTH -> returns (times n iteratee).
Proof.
  intros H. unfold times, returns.
  destruct (ToLength n >? MAX_ARRAY_LENGTH) eqn:E; [lia|eauto].
Qed.








(** ** [debounce] *)

Module DebounceFacts.
Import Debounce.

Section Bounds.
Variable Args : Type.
Implicit Types (p : policy) (s : state Args) (calls : list (Z * Args)).

Lemma elapse_length p s : (List.length (snd (elapse p s)) <= 1)%nat.
Proof.
  unfold elapse. destruct (timer s); cbn; [|lia].
  destruct (buffered s); cbn; [|lia].
  destruct (on_trailing p); cbn; lia.
Qed.

Lemma elapse_idle p s deadline :
  timer s = Some deadline -> fst (elapse p s) = idle.
Proof. unfold elapse. intros ->. reflexivity. Qed.

(** While a timer is pending, the calls to come bring at most one
    invocation for the period under way and [per_period] for each
    period they open. *)
Lemma run_pending_bound p calls :
  forall s prev,
    timer s = Some (prev + wait p) ->
    (List.length (run p calls s)
     <= 1 + per_period p * settlings_from (wait p) prev calls)%nat.
Proof.
  induction calls as [|[now args] rest IH]; intros s prev T.
  - cbn [run settlings_from]. pose proof (elapse_length p s). lia.
  - cbn [run settlings_from]. unfold advance. rewrite T.
    destruct (prev + wait p <=? now) eqn:Due.
    + assert (Late : (now - prev <? wait p) = false) by lia. rewrite Late.
      pose proof (elapse_length p s) as L.
      pose proof (elapse_idle p s _ T) as I.
      destruct (elapse p s) as [s1 before]. cbn [fst snd] in *. subst s1.
      cbn [call pending timer idle negb].
      rewrite !length_app.
      specialize (IH (mkState (Some (now + wait p)) (Some args)) now eq_refl).
      unfold per_period in *. destruct (on_leading p); cbn [andb List.length] in *; lia.
    + assert (Early : (now - prev <? wait p) = true) by lia. rewrite Early.
      cbn [call]. unfold pending. rewrite T.
      rewrite andb_false_r. cbn [app].
      apply (IH (mkState (Some (now + wait p)) (Some args)) now eq_refl).
Qed.

Lemma run_idle_bound p calls :
  (List.length (run p calls idle)
   <= per_period p * settlings (wait p) calls)%nat.
Proof.
  destruct calls as [|[now args] rest].
  - cbn. lia.
  - cbn [run settlings advance idle timer call pending negb app].
    pose proof (run_pending_bound p rest
                  (mkState (Some (now + wait p)) (Some args)) now eq_refl) as B.
    rewrite length_app.
    unfold per_period in *. destruct (on_leading p); cbn [andb List.length] in *; lia.
Qed.

Lemma burst_settles_once w calls prev :
  burst_from w prev calls -> settlings_from w prev calls = 0%nat.
Proof.
  revert prev. induction calls as [|[now args] rest IH]; intros prev; cbn.
  - reflexivity.
  - intros (_ & Near & B).
    assert (E : (now - prev <? w) = true) by lia. rewrite E. apply IH, B.
Qed.

Lemma burst_one_period w calls : burst w calls -> settlings w calls = 1%nat.
Proof.
  destruct calls as [|[now args] rest]; cbn; [tauto|].
  intros B. now rewrite (burst_settles_once _ _ _ B).
Qed.
End Bounds.

End DebounceFacts.

(** C1: a burst of calls of the debounced function, each less than
    [wait] after the one before, brings at most one invocation of [f]
    under the default options, and at most two when [leading] and
    [trailing] are both true; over any series of calls the bounds
    hold per settling period. *)
Theorem debounce_invocations_per_burst
  (Args : Type) (also_trailing : bool) (wait : option Z) (calls : list (Z * Args)) :
  let w := match wait with Some w => w | None => 0 end in
  let by_default := Debounce.debounce also_trailing wait None in
  let both := Debounce.debounce also_trailing wait (Some (mkOptions (Some true) (Some true))) in
  (Debounce.burst w calls ->
   (List.length (Debounce.run by_default calls Debounce.idle) <= 1)%nat
   /\ (List.length (Debounce.run both calls Debounce.idle) <= 2)%nat)
  /\ (List.length (Debounce.run by_default calls Debounce.idle)
      <= Debounce.settlings w calls)%nat
  /\ (List.length (Debounce.run both calls Debounce.idle)
      <= 2 * Debounce.settlings w calls)%nat.
Proof.
  intros w by_default both.
  pose proof (DebounceFacts.run_idle_bound Args by_default calls) as D.
  pose proof (DebounceFacts.run_idle_bound Args both calls) as B.
  change (Debounce.wait by_default) with w in D.
  change (Debounce.wait both) with w in B.
  change (Debounce.per_period by_default) with 1%nat in D.
  change (Debounce.per_period both) with 2%nat in B.
  split; [|split; lia].
  intros H. rewrite (DebounceFacts.burst_one_period Args w calls H) in D, B. lia.
Qed.

Lemma debounce_invocations_per_burst_witness :
  (List.length
     (Debounce.run (Debounce.debounce true (Some 100%Z) None)
        Debounce.sample_burst Debounce.idle) <= 1)%nat
  /\ (List.length
        (Debounce.run
           (Debounce.debounce true (Some 100%Z) (Some (mkOptions (Some true) (Some true))))
           Debounce.sample_burst Debounce.idle) <= 2)%nat.
Proof.
  apply (proj1 (debounce_invocations_per_burst string true (Some 100%Z)
                  Debounce.sample_burst)).
  cbn. lia.
Defined.

(** C2: with [leading: true], a call made while no timer is pending
    invokes [f] at once with the arguments of that call and starts a
    timer of length [wait]; a later call that comes before the timer
    elapses finds it pending and invokes nothing at once. *)
Theorem debounce_leading_call
  (Args : Type) (also_trailing : bool) (wait : option Z) (trailing_option : option bool)
  (s : Debounce.state Args) (now : Z) (args : Args) :
  Debounce.pending s = false ->
  let w := match wait with Some w => w | None => 0 end in
  let p := Debounce.debounce also_trailing wait
             (Some (mkOptions (Some true) trailing_option)) in
  let s' := fst (Debounce.call p now args s) in
  snd (Debounce.call p now args s) = [(now, args)]
  /\ Debounce.timer s' = Some (now + w)
  /\ (forall later args',
         later - now < w ->
         Debounce.advance p later s' = (s', [])
         /\ snd (Debounce.call p later args' s') = []).
Proof.
  intros Idle w p s'. unfold Debounce.call in *. cbn [fst snd] in *.
  rewrite Idle. cbn.
  repeat apply conj; try reflexivity.
  - intros later args' Near. unfold Debounce.advance. cbn.
    assert (E : (now + w <=? later) = false) by lia.
    fold w. now rewrite E.
Qed.

Lemma debounce_leading_call_witness :
  snd (Debounce.call (Debounce.debounce false (Some 50%Z) (Some (mkOptions (Some true) None)))
         10 "x" Debounce.idle) = [(10, "x")].
Proof.
  apply (debounce_leading_call string false (Some 50%Z) None Debounce.idle 10 "x").
  reflexivity.
Defined.

(** Sample runs with [wait] = 100: three calls in one burst, then the
    same calls with the last one late enough to open a second
    period. *)
Example debounce_run_default :
  Debounce.run (Debounce.debounce false (Some 100%Z) None)
    Debounce.sample_burst Debounce.idle = [(220, "c")].
Proof. reflexivity. Qed.

Example debounce_run_two_periods :
  Debounce.run (Debounce.debounce false (Some 100%Z) None)
    Debounce.sample_calls Debounce.idle = [(140, "b"); (400, "c")].
Proof. reflexivity. Qed.

Example debounce_run_leading_only :
  Debounce.run (Debounce.debounce false (Some 100%Z) (Some (mkOptions (Some true) (Some true))))
    Debounce.sample_burst Debounce.idle = [(0, "a")].
Proof. reflexivity. Qed.

Example debounce_run_both_edges :
  Debounce.run (Debounce.debounce true (Some 100%Z) (Some (mkOptions (Some true) (Some true))))
    Debounce.sample_burst Debounce.idle = [(0, "a"); (220, "c")].
Proof. reflexivity. Qed.

(** ** Sample evaluations of the helpers *)

Example split_dotted : split "."%char "a..b." = ["a"; ""; "b"; ""].
Proof. reflexivity. Qed.

Example get_through_array (inherited : environment) :
  get inherited (VObj [field "a" (VArr [VObj [field "b" (VNum (of_Z 2))]])])
    (PathString "a.0.b") VUndefined = Normal (VNum (of_Z 2)).
Proof. reflexivity. Qed.

Example dropRight_two : dropRight [1; 2; 3] (Some (of_Z 2)) = [1].
Proof. reflexivity. Qed.

Example dropRight_negative : dropRight [1; 2; 3] (Some (of_Z (-2))) = [1; 2].
Proof. reflexivity. Qed.

Example times_three : times (of_Z 3) VNum = Normal [VNum (of_Z 0); VNum (of_Z 1); VNum (of_Z 2)].
Proof. reflexivity. Qed.

Example times_negative : times (of_Z (-3)) VNum = Normal [].
Proof. reflexivity. Qed.

Example min_of_zeros : min 3 [of_Z 3; of_Z 0; NegZero] = Normal (VNum NegZero).
Proof. reflexivity. Qed.

Example min_of_nothing : min 0 [] = Normal VUndefined.
Proof. reflexivity. Qed.

Example inRange_one_bound : inRange (of_Z (-3)) (of_Z (-5)) None = true.
Proof. reflexivity. Qed.

Example pickBy_own_enumerable :
  pickBy [field "a" VNull; mkProp "hidden" false VNull; field "b" (VBool true)]
    (fun _ key => negb (String.eqb key "a"))
  = [field "b" (VBool true)].
Proof. reflexivity. Qed.

Example isDate_invalid (call : method_call) : isDate call (VDate NaN []) = Normal false.
Proof. reflexivity. Qed.

(** * Further properties of the helpers *)

(** ** [get]: paths *)

(** X1: looking up the concatenation of two key arrays is looking up
    the first in the object and the second in what that gives. *)
Theorem get_path_append (inherited : environment) (obj : value) (a b : list string)
  (defaultValue : value) :
  get inherited obj (PathArray (a ++ b)%list) defaultValue
  = (v <- get inherited obj (PathArray a) VUndefined ;;
     get inherited v (PathArray b) defaultValue).
Proof.
  unfold get. cbn [path_keys].
  revert obj. induction a as [|k a IH]; intros obj.
  - cbn [app get_loop bind]. unfold coalesce.
    destruct (nullish obj) eqn:N; [|reflexivity].
    destruct b as [|kb b]; cbn [get_loop nullish].
    + unfold coalesce. rewrite N. reflexivity.
    + rewrite N. reflexivity.
  - cbn [app get_loop]. destruct (nullish obj) eqn:N.
    + cbn [bind]. destruct b; reflexivity.
    + destruct (Get inherited obj k) as [r|e]; cbn [bind]; [apply IH|reflexivity].
Qed.

(** X28: on [null] and on [undefined], [get] returns the default
    whatever the path, the empty array of keys included. *)
Theorem get_of_nullish (inherited : environment) (obj : value) (p : path)
  (defaultValue : value) :
  nullish obj = true -> get inherited obj p defaultValue = Normal defaultValue.
Proof.
  intros N. unfold get. destruct (path_keys p) as [|k keys]; cbn [get_loop].
  - unfold coalesce. now rewrite N.
  - now rewrite N.
Qed.

Lemma get_of_nullish_witness :
  get bare VNull (PathArray []) (VBool true) = Normal (VBool true).
Proof. apply (get_of_nullish bare VNull (PathArray []) (VBool true)). reflexivity. Defined.

(** [split] undoes [String.concat] on keys that hold no separator. *)
Lemma split_free (sep : ascii) (s : string) :
  free_of sep s = true -> split sep s = [s].
Proof.
  induction s as [|c s IH]; cbn; [reflexivity|].
  destruct (Ascii.eqb c sep); cbn; [discriminate|].
  intros F. now rewrite (IH F).
Qed.

Lemma split_append (sep : ascii) (s t : string) :
  free_of sep s = true ->
  split sep (s ++ String sep t) = s :: split sep t.
Proof.
  induction s as [|c s IH]; cbn.
  - intros _. now rewrite Ascii.eqb_refl.
  - destruct (Ascii.eqb c sep); cbn; [discriminate|].
    intros F. now rewrite (IH F).
Qed.

Lemma split_concat (sep : ascii) (keys : list string) :
  keys <> [] ->
  forallb (free_of sep) keys = true ->
  split sep (String.concat (String sep EmptyString) keys) = keys.
Proof.
  induction keys as [|k keys IH]; [congruence|].
  intros _. cbn [forallb]. intros F. apply andb_prop in F as [Fk Fks].
  destruct keys as [|k' keys].
  - cbn. now apply split_free.
  - cbn [String.concat]. change (String sep EmptyString ++ ?t) with (String sep t).
    rewrite (split_append sep k _ Fk). f_equal.
    apply IH; [discriminate|exact Fks].
Qed.

(** X2: a dotted string path reaches what the array of its keys
    reaches, as long as there is a key and no key holds a dot. *)
Theorem get_dotted_path (inherited : environment) (obj : value) (keys : list string)
  (defaultValue : value) :
  keys <> [] ->
  forallb (free_of "."%char) keys = true ->
  get inherited obj (PathString (String.concat "." keys)) defaultValue
  = get inherited obj (PathArray keys) defaultValue.
Proof.
  intros Hne Hfree. unfold get. cbn [path_keys].
  now rewrite (split_concat "."%char keys Hne Hfree).
Qed.

Lemma get_dotted_path_witness :
  get bare (VObj [field "a" (VObj [field "b" (VStr "x")])])
    (PathString (String.concat "." ["a"; "b"])) VNull
  = get bare (VObj [field "a" (VObj [field "b" (VStr "x")])]) (PathArray ["a"; "b"])
      VNull.
Proof.
  apply (get_dotted_path bare _ ["a"; "b"] VNull); [discriminate|reflexivity].
Defined.

Lemma get_loop_result (inherited : environment) (keys : list string) :
  forall obj defaultValue v,
    get_loop inherited keys obj defaultValue = Normal v ->
    v = defaultValue \/ nullish v = false.
Proof.
  induction keys as [|k keys IH]; intros obj d v; cbn.
  - unfold coalesce. destruct (nullish obj) eqn:N; intros [= <-]; auto.
  - destruct (nullish obj) eqn:N.
    + intros [= <-]; auto.
    + destruct (Get inherited obj k) as [r|e]; cbn; [apply IH|discriminate].
Qed.

(** X3: whatever the object and the path, [get] gives the default or
    a value that is neither [null] nor [undefined]. *)
Theorem get_never_nullish (inherited : environment) (obj : value) (p : path)
  (defaultValue v : value) :
  get inherited obj p defaultValue = Normal v ->
  v = defaultValue \/ nullish v = false.
Proof. apply get_loop_result. Qed.

Lemma get_never_nullish_witness :
  VStr "x" = VStr "d" \/ nullish (VStr "x") = false.
Proof.
  apply (get_never_nullish bare (VObj [field "a" (VStr "x")]) (PathString "a")
           (VStr "d") (VStr "x")).
  reflexivity.
Defined.

(** ** [dropRight] *)

Lemma Qle_bool_inject (a b : Z) : Qle_bool (inject_Z a) (inject_Z b) = (a <=? b).
Proof.
  destruct (a <=? b) eqn:E.
  - apply Qle_bool_iff. rewrite <- Zle_Qle. lia.
  - destruct (Qle_bool _ _) eqn:L; [|reflexivity].
    apply Qle_bool_iff in L. rewrite <- Zle_Qle in L. lia.
Qed.

Lemma Qeq_bool_inject (a : Z) : Qeq_bool (inject_Z a) 0 = (a =? 0).
Proof. unfold Qeq_bool, inject_Z. cbn. now rewrite Z.mul_1_r. Qed.

Lemma Qtrunc_inject (a : Z) : Qtrunc (inject_Z a) = a.
Proof. unfold Qtrunc, inject_Z. cbn. apply Z.quot_1_r. Qed.

Lemma Qtrunc_opp_inject (a : Z) : Qtrunc (- inject_Z a) = - a.
Proof. unfold Qtrunc, inject_Z, Qopp. cbn. apply Z.quot_1_r. Qed.

(** X4: for a whole number [n >= 1], [dropRight] keeps the first
    [length - n] elements, none when [n] reaches the length. *)
Theorem dropRight_positive (T : Type) (array : list T) (n : Z) :
  0 < n ->
  dropRight array (Some (of_Z n)) = firstn (List.length array - Z.to_nat n) array.
Proof.
  intros Hn. unfold dropRight, Num.geb, Num.leb, of_nat, of_Z.
  rewrite Qle_bool_inject.
  destruct (Z.of_nat (List.length array) <=? n) eqn:E.
  - replace (List.length array - Z.to_nat n)%nat with 0%nat by lia. reflexivity.
  - unfold Num.neg. rewrite Qeq_bool_inject.
    replace (n =? 0) with false by lia.
    unfold Array_slice, ToIntegerOrInfinity.
    rewrite Qtrunc_opp_inject, Qtrunc_inject. cbn [relative].
    replace (- n <? 0) with true by lia. cbn [Z.ltb Z.compare].
    replace (Z.min 0 (Z.of_nat (List.length array))) with 0 by lia.
    cbn [Z.to_nat skipn]. f_equal. lia.
Qed.

Lemma dropRight_positive_witness :
  dropRight [10; 20; 30; 40] (Some (of_Z 3)) = [10].
Proof.
  apply (dropRight_positive Z [10; 20; 30; 40] 3). lia.
Defined.

(** X5: a negative whole number does not drop from the right: with
    [-k], [dropRight] keeps the first [k] elements. *)
Theorem dropRight_negative_count (T : Type) (array : list T) (k : Z) :
  0 < k ->
  dropRight array (Some (of_Z (- k))) = firstn (Z.to_nat k) array.
Proof.
  intros Hk. unfold dropRight, Num.geb, Num.leb, of_nat, of_Z.
  rewrite Qle_bool_inject.
  replace (Z.of_nat (List.length array) <=? - k) with false
    by (symmetry; apply Z.leb_gt; lia).
  unfold Num.neg. rewrite Qeq_bool_inject.
  replace (- k =? 0) with false by lia.
  unfold Array_slice, ToIntegerOrInfinity.
  rewrite Qtrunc_opp_inject, Qtrunc_inject, Z.opp_involutive. cbn [relative].
  replace (k <? 0) with false by lia. cbn [Z.ltb Z.compare].
  replace (Z.min 0 (Z.of_nat (List.length array))) with 0 by lia.
  cbn [Z.to_nat skipn]. rewrite Z.sub_0_r.
  destruct (Z.le_gt_cases k (Z.of_nat (List.length array))) as [Le|Gt].
  - f_equal. lia.
  - rewrite !firstn_all2 by lia. reflexivity.
Qed.

Lemma dropRight_negative_count_witness :
  dropRight [10; 20; 30; 40] (Some (of_Z (- 1))) = [10].
Proof.
  apply (dropRight_negative_count Z [10; 20; 30; 40] 1). lia.
Defined.

(** X6: [dropRight] of NaN and of plus infinity is empty, and of
    minus infinity is the whole array. *)
Theorem dropRight_not_finite (T : Type) (array : list T) :
  dropRight array (Some NaN) = []
  /\ dropRight array (Some PosInf) = []
  /\ dropRight array (Some NegInf) = array.
Proof.
  unfold dropRight, Array_slice. cbn.
  replace (Z.min 0 (Z.of_nat (List.length array))) with 0 by lia.
  cbn. rewrite Z.sub_0_r, Z.max_l, Nat2Z.id by lia.
  rewrite firstn_all. repeat split; reflexivity.
Qed.

(** X7: dropping [m] and then [n] elements is dropping [m + n], for
    whole numbers [m, n >= 1]. *)
Theorem dropRight_twice (T : Type) (array : list T) (m n : Z) :
  0 < m -> 0 < n ->
  dropRight (dropRight array (Some (of_Z m))) (Some (of_Z n))
  = dropRight array (Some (of_Z (m + n))).
Proof.
  intros Hm Hn.
  rewrite (dropRight_positive T array m Hm).
  rewrite (dropRight_positive T _ n Hn).
  rewrite (dropRight_positive T array (m + n)) by lia.
  rewrite firstn_firstn, length_firstn. f_equal. lia.
Qed.

Lemma dropRight_twice_witness :
  dropRight (dropRight [10; 20; 30; 40] (Some (of_Z 1))) (Some (of_Z 2))
  = dropRight [10; 20; 30; 40] (Some (of_Z (1 + 2))).
Proof.
  apply (dropRight_twice Z [10; 20; 30; 40] 1 2); lia.
Defined.

(** ** [times] *)

(** X8: for a whole number [n] from 0 to 2^32 - 1, [times] returns
    [n] elements, the one at index [i] being [iteratee(i)]. *)
Theorem times_elements (T : Type) (n : Z) (iteratee : number -> T) :
  0 <= n <= MAX_ARRAY_LENGTH ->
  exists result,
    times (of_Z n) iteratee = Normal result
    /\ List.length result = Z.to_nat n
    /\ forall i, (i < Z.to_nat n)%nat -> nth_error result i = Some (iteratee (of_nat i)).
Proof.
  intros [Lo Hi]. unfold times, ToLength, ToIntegerOrInfinity, of_Z.
  rewrite Qtrunc_inject.
  assert (L : (if n <=? 0 then 0 else Z.min n MAX_SAFE_INTEGER) = n).
  { unfold MAX_ARRAY_LENGTH, MAX_SAFE_INTEGER in *. destruct (n <=? 0) eqn:E; lia. }
  rewrite L. replace (n >? MAX_ARRAY_LENGTH) with false by lia.
  eexists. split; [reflexivity|]. split.
  - now rewrite length_map, length_seq.
  - intros i Hi'. rewrite nth_error_map, nth_error_seq.
    apply Nat.ltb_lt in Hi'. now rewrite Hi'.
Qed.

Lemma times_elements_witness :
  exists result,
    times (of_Z 2) VNum = Normal result
    /\ List.length result = Z.to_nat 2
    /\ forall i, (i < Z.to_nat 2)%nat -> nth_error result i = Some (VNum (of_nat i)).
Proof.
  apply (times_elements value 2 VNum). vm_compute. split; discriminate.
Defined.

Lemma Qtrunc_below_one (q : Q) : (q < 1)%Q -> Qtrunc q <= 0.
Proof.
  unfold Qlt, Qtrunc. destruct q as [a d]. cbn. rewrite Z.mul_1_r. intros H.
  destruct (Z.le_gt_cases 0 a) as [P|N].
  - rewrite Z.quot_small; lia.
  - apply Z.quot_le_upper_bound; lia.
Qed.

(** X9: [times] returns the empty array for every [n] below 1, among
    them the negative numbers and minus infinity, and for NaN. *)
Theorem times_nothing (T : Type) (n : number) (iteratee : number -> T) :
  Num.ltb n (of_Z 1) = true \/ n = NaN ->
  times n iteratee = Normal [].
Proof.
  intros H.
  assert (L : ToLength n = 0).
  { destruct H as [H| ->]; [|reflexivity].
    destruct n as [| | | |q]; cbn in H; try discriminate; try reflexivity.
    unfold ToLength, ToIntegerOrInfinity.
    assert (Q1 : (q < 1)%Q).
    { apply Qnot_le_lt. intros Le. apply Qle_bool_iff in Le.
      change (inject_Z 1) with 1%Q in H. rewrite Le in H. discriminate. }
    pose proof (Qtrunc_below_one q Q1).
    replace (Qtrunc q <=? 0) with true by lia. reflexivity. }
  unfold times. rewrite L. reflexivity.
Qed.

Lemma times_nothing_witness :
  times (Real (-7 # 2)) VNum = Normal [] /\ times (Real (1 # 2)) VNum = Normal [].
Proof.
  split.
  - apply (times_nothing value (Real (-7 # 2)) VNum). left. reflexivity.
  - apply (times_nothing value (Real (1 # 2)) VNum). left. reflexivity.
Defined.

(** ** [flatten] *)




(** ** The array delegates *)

Section DelegateFacts.
Context {T : Type}.
Implicit Types (array rest : list T) (predicate : T -> number -> list T -> bool).




Lemma find_from_first array predicate rest : forall (k : nat),
  (find_from array predicate k rest = of_Z (-1)
   /\ forall j x, nth_error rest j = Some x -> predicate x (of_nat (k + j)) array = false)
  \/ (exists j x,
         find_from array predicate k rest = of_nat (k + j)
         /\ nth_error rest j = Some x
         /\ predicate x (of_nat (k + j)) array = true
         /\ forall j' y, (j' < j)%nat -> nth_error rest j' = Some y ->
                         predicate y (of_nat (k + j')) array = false).
Proof.
  induction rest as [|x rest IH]; intros k; cbn [find_from].
  - left. split; [reflexivity|]. intros [|j] y; discriminate.
  - destruct (predicate x (of_nat k) array) eqn:P.
    + right. exists 0%nat, x. rewrite Nat.add_0_r.
      repeat split; try assumption; try reflexivity. intros j' y Hj. lia.
    + destruct (IH (S k)) as [[E N]|(j & y & E & Hn & Hp & Hb)].
      * left. split; [exact E|]. intros [|j] y Hy.
        -- injection Hy as <-. now rewrite Nat.add_0_r.
        -- rewrite <- Nat.add_succ_comm. now apply N.
      * right. exists (S j), y. rewrite <- Nat.add_succ_comm.
        repeat split; try assumption.
        intros [|j'] z Hj Hz.
        -- injection Hz as <-. now rewrite Nat.add_0_r.
        -- rewrite <- Nat.add_succ_comm. apply (Hb j' z); [lia|exact Hz].
Qed.
End DelegateFacts.

(** X12: [findIndex] returns the index of the first element the
    predicate accepts, the predicate being given the element, its
    index and the whole array. *)
Theorem findIndex_first (T : Type) (array : list T)
  (predicate : T -> number -> list T -> bool) (i : nat) (x : T) :
  nth_error array i = Some x ->
  predicate x (of_nat i) array = true ->
  (forall j y, (j < i)%nat -> nth_error array j = Some y ->
               predicate y (of_nat j) array = false) ->
  findIndex array predicate = of_nat i.
Proof.
  intros Hx Hp Hbefore. unfold findIndex.
  destruct (find_from_first array predicate array 0)
    as [[_ N]|(j & y & E & Hn & Hq & Hb)]; cbn [Nat.add] in *.
  - rewrite (N i x Hx) in Hp. discriminate.
  - rewrite E. f_equal.
    destruct (Nat.lt_trichotomy i j) as [Lt|[Eq|Gt]]; [|exact (eq_sym Eq)|].
    + rewrite (Hb i x Lt Hx) in Hp. discriminate.
    + rewrite (Hbefore j y Gt Hn) in Hq. discriminate.
Qed.

Lemma findIndex_first_witness :
  findIndex [5; 8; 8] (fun v _ _ => v =? 8) = of_nat 1.
Proof.
  apply (findIndex_first Z [5; 8; 8] (fun v _ _ => v =? 8) 1 8).
  - reflexivity.
  - reflexivity.
  - intros [|j] y Hj Hy; [|lia]. injection Hy as <-. reflexivity.
Defined.












(** X18: [some] answers true exactly when [filter] keeps an
    element. *)
Theorem some_iff_filter_nonempty (T : Type) (array : list T)
  (predicate : T -> number -> list T -> bool) :
  some array predicate = negb (Nat.eqb (List.length (filter array predicate)) 0).
Proof.
  unfold some, filter. rewrite length_map.
  induction (with_index array) as [|xi l IH]; cbn; [reflexivity|].
  destruct (predicate (fst xi) (of_nat (snd xi)) array); cbn; [reflexivity|exact IH].
Qed.

(** ** [min] *)







(** X20: as soon as an array that is short enough for the engine to
    take its elements as arguments holds NaN, [min] returns NaN. *)
Theorem min_of_NaN (max_arguments : nat) (array : list number) :
  (List.length array <= max_arguments)%nat ->
  In NaN array -> min max_arguments array = Normal (VNum NaN).
Proof.
  intros Hlen Hin. unfold min, Math_min.
  assert (E : existsb Num.isNaN array = true)
    by (apply existsb_exists; exists NaN; split; [exact Hin|reflexivity]).
  rewrite E. destruct array as [|a array]; [destruct Hin|].
  cbn [List.length Nat.eqb] in *.
  replace (max_arguments <? S (List.length array))%nat with false
    by (symmetry; apply Nat.ltb_ge; exact Hlen).
  reflexivity.
Qed.

Lemma min_of_NaN_witness : min 3 [of_Z 1; NaN; NegInf] = Normal (VNum NaN).
Proof.
  apply (min_of_NaN 3 [of_Z 1; NaN; NegInf]); [cbn; lia|]. right. left. reflexivity.
Defined.

(** ** [pickBy] *)









(** ** The type predicates and [isEmpty] *)


(** X24: [isEmpty] never reports a number, a boolean or a function as
    empty. *)
Theorem isEmpty_not_a_container (inherited : environment) (v : value) :
  typeof v = "number" \/ typeof v = "boolean" \/ typeof v = "function" ->
  isEmpty inherited v = Normal false.
Proof.
  destruct v; cbn; intros [H|[H|H]]; try discriminate; reflexivity.
Qed.

Lemma isEmpty_not_a_container_witness :
  isEmpty bare (VNum (of_Z 0)) = Normal false
  /\ isEmpty bare (VBool false) = Normal false.
Proof.
  split.
  - apply (isEmpty_not_a_container bare (VNum (of_Z 0))). left. reflexivity.
  - apply (isEmpty_not_a_container bare (VBool false)). right. left. reflexivity.
Defined.

(** ** [inRange]: the edges *)

(** X25: [inRange] is false as soon as the value or a bound is NaN,
    and when the two bounds are the same number: the range is then
    empty. *)
Theorem inRange_empty (value start end_ : number) :
  value = NaN \/ start = NaN \/ end_ = NaN \/ start = end_ ->
  inRange value start (Some end_) = false.
Proof.
  unfold inRange, Math_min, Math_max, min_step, max_step, Num.geb, Num.gtb.
  intros [->|[->|[->| ->]]];
    [destruct start, end_ | destruct value, end_ | destruct value, start
    | destruct value, end_]; cbn; try reflexivity; q_cases.
Qed.

Lemma inRange_empty_witness :
  inRange (of_Z 3) (of_Z 3) (Some (of_Z 3)) = false
  /\ inRange (of_Z 3) NaN (Some (of_Z 5)) = false.
Proof.
  split.
  - apply (inRange_empty (of_Z 3) (of_Z 3) (of_Z 3)). right. right. right. reflexivity.
  - apply (inRange_empty (of_Z 3) NaN (of_Z 5)). right. left. reflexivity.
Defined.

(** X26: with one bound, [inRange] tests the range between 0 and
    the bound, whichever is smaller coming first: a negative bound
    [s] gives [s <= value < 0]. *)
Theorem inRange_single_bound (v s : Q) :
  inRange (Real v) (Real s) None = true <-> (Qmin 0 s <= v /\ v < Qmax 0 s)%Q.
Proof. exact (inRange_rational v 0 s). Qed.

Lemma inRange_single_bound_witness :
  inRange (Real (-3 # 2)) (Real (-2)) None = true.
Proof.
  apply (proj2 (inRange_single_bound (-3 # 2) (-2))).
  split; [apply Q.min_le_iff; right; unfold Qle | apply Q.max_lt_iff; left; unfold Qlt];
    cbn; lia.
Defined.

(** ** [debounce]: what the wrapper forwards *)

(** X27: [debounce] hands the library the function, the wait (0 when
    left out) and the single flag [options.leading === true]; two
    option objects that agree on that flag give the same call, so
    [options.trailing] has no effect and [{leading: false}] is the
    same as no options. *)
Theorem debounce_reads_leading_only
  (F G : Type) (justDebounce : F -> Z -> bool -> G) (func : F) (wait : option Z)
  (o1 o2 : DebounceOptions) :
  is_true (leading o1) = is_true (leading o2) ->
  debounce justDebounce func wait (Some o1) = debounce justDebounce func wait (Some o2)
  /\ (is_true (leading o1) = false ->
      debounce justDebounce func wait (Some o1) = debounce justDebounce func wait None).
Proof.
  intros E. unfold debounce. rewrite E. split; [reflexivity|].
  intros ->. reflexivity.
Qed.

Lemma debounce_reads_leading_only_witness :
  debounce (fun (_ : unit) w i => (w, i)) tt (Some 20) (Some (mkOptions None (Some false)))
  = debounce (fun (_ : unit) w i => (w, i)) tt (Some 20)
      (Some (mkOptions (Some false) (Some true))).
Proof.
  apply (proj1 (debounce_reads_leading_only unit (Z * bool) (fun _ w i => (w, i)) tt
                  (Some 20) (mkOptions None (Some false))
                  (mkOptions (Some false) (Some true)) eq_refl)).
Defined.

(** The wrapper of the module [Debounce] is this wrapper over the
    modelled library function. *)
Lemma debounce_modelled (also_trailing : bool) (wait : option Z)
  (options : option DebounceOptions) :
  Debounce.debounce also_trailing wait options
  = debounce (fun (_ : unit) w i => Debounce.justDebounce also_trailing w i) tt wait options.
Proof. reflexivity. Qed.
